(** * create_placeholder.py: the placeholder image generator

    A shallow embedding of the script [create_placeholder.py] and the
    properties of the picture it draws and of the file it writes.

    The script is glue over the imaging library: it allocates an image,
    draws on it through a drawing handle that shares the image object,
    loads two fonts inside a [try]/[except], measures and draws two lines
    of text, saves the image and prints one line.  The embedding keeps
    that shape: every statement of the script is one step in a
    state-and-exception monad over the state of the Python process (its
    image objects, the two font variables) and of the world around it
    (the files of the working directory, the record of the input and
    output performed).

    What the library and the operating system answer is not in the
    script; it is taken from an environment [env]: whether a font file
    loads, what bounding box a text measures to, whether the output file
    may be written.  An image is kept as its display list (mode, size,
    background and the drawing operations applied, in order); rasterising
    and PNG encoding are the library's business and are not modelled, so
    a file is identified with the image stored in it, and the directory
    is the map from the names of its image files to the images they
    hold: a file left truncated holds none and has no entry. *)

From stdpp Require Import gmap strings list.

Local Open Scope Z_scope.
Local Open Scope string_scope.

(** ** Python values used by the script *)

(** Exceptions.  [KeyboardInterrupt], [SystemExit] and [GeneratorExit]
    derive from [BaseException] only; the other named ones derive from
    [Exception]; any other class comes with its name and with whether it
    derives from [Exception]. *)
Inductive exn : Type :=
  | OSError
  | ValueError
  | MemoryError
  | NameError
  | SystemError
  | KeyboardInterrupt
  | SystemExit
  | GeneratorExit
  | OtherException (name : string) (derives_Exception : bool).

Definition is_Exception (e : exn) : bool :=
  match e with
  | KeyboardInterrupt | SystemExit | GeneratorExit => false
  | OtherException _ derives_Exception => derives_Exception
  | _ => true
  end.

(** The clause of an [except]: which exceptions it catches. *)
Definition bare_except (e : exn) : bool := true.
Definition except_Exception (e : exn) : bool := is_Exception e.

(** Python's [//] on integers. *)
Definition floordiv (a b : Z) : Z := a / b.

(** [range(n)]. *)
Definition range (n : Z) : list Z := Z.of_nat <$> seq 0 (Z.to_nat n).

(** Indexing a 4-tuple, [t[i]], for the literal indices 0 to 3 the
    script uses. *)
Definition item (t : Z * Z * Z * Z) (i : nat) : Z :=
  let '(t0, t1, t2, t3) := t in
  match i with
  | O => t0
  | 1%nat => t1
  | 2%nat => t2
  | _ => t3
  end.

(** ** Imaging library objects *)

Inductive Font : Type :=
  | FreeTypeFont (path : string) (size : Z)
  | DefaultFont.

Inductive draw_op : Type :=
  | Rectangle (xy : Z * Z * Z * Z) (outline : string)
  | Text (xy : Z * Z) (text : string) (fill : string) (font : Font).

Record Image : Type := mkImage {
  im_mode : string;
  im_size : Z * Z;
  im_color : string;
  im_ops : list draw_op
}.

Definition im_draw (op : draw_op) (im : Image) : Image :=
  mkImage (im_mode im) (im_size im) (im_color im) (im_ops im ++ [op]).

(** ** The environment: answers of the library and of the system *)

(** Two calls of the script may raise: loading a font file, which the
    script guards with its [try], and saving.  Allocating the image,
    drawing, measuring and loading the built-in font are taken to
    return, and standard output is taken to accept the line printed. *)
Record env : Type := mkEnv {
  (** [None] when the font file loads, [Some e] when loading raises [e] *)
  font_error : string -> Z -> option exn;
  (** the bounding box of a text drawn at [xy] with a font *)
  measure : Z * Z -> string -> Font -> Z * Z * Z * Z;
  (** [None] when the file may be created or truncated and written,
      [Some e] when opening or writing it raises [e] *)
  save_error : string -> option exn;
  (** for a save that raises: [true] when it raises after the file was
      opened for writing, [false] when the file was never opened *)
  save_opened : string -> bool
}.

(** ** State of the process and of the world *)

Inductive io_event : Type :=
  | FontOpen (path : string)
  | FileWrite (path : string)
  | StdoutWrite (line : string).

Record state : Type := mkState {
  heap : list Image;               (* image objects, addressed by position *)
  font : option Font;              (* the variable [font], unset at start *)
  subfont : option Font;           (* the variable [subfont] *)
  files : gmap string Image;       (* files of the working directory *)
  io_log : list io_event           (* input and output performed, in order *)
}.

Definition write_file (path : string) (im : Image)
    (fs : gmap string Image) : gmap string Image :=
  <[path := im]> fs.
Arguments write_file : simpl never.

(** ** The monad: state and exceptions *)

Inductive result (A : Type) : Type :=
  | Ok (a : A)
  | Raise (e : exn).
Arguments Ok {A} a.
Arguments Raise {A} e.

Definition M (A : Type) : Type := state -> result A * state.

Definition ret {A} (a : A) : M A := fun s => (Ok a, s).

Definition bind {A B} (m : M A) (k : A -> M B) : M B :=
  fun s =>
    match m s with
    | (Ok a, s') => k a s'
    | (Raise e, s') => (Raise e, s')
    end.

Definition raise {A} (e : exn) : M A := fun s => (Raise e, s).

Notation "x <- m ;; k" := (bind m (fun x => k))
  (at level 100, m at next level, k at level 200, only parsing).
Notation "m ;; k" := (bind m (fun _ => k))
  (at level 100, k at level 200, only parsing).

(** [try: body except <clause>: handler].  An exception the clause does
    not catch propagates; the handler runs in the state the body left. *)
Definition try_except {A} (body : M A) (clause : exn -> bool)
    (handler : M A) : M A :=
  fun s =>
    match body s with
    | (Ok a, s') => (Ok a, s')
    | (Raise e, s') => if clause e then handler s' else (Raise e, s')
    end.

(** [for x in l: body x]. *)
Fixpoint for_ {A} (l : list A) (body : A -> M unit) : M unit :=
  match l with
  | [] => ret tt
  | x :: l' => body x ;; for_ l' body
  end.

(** ** Library calls *)

Definition ref : Type := nat.

(** [Image.new(mode, size, color)]: a fresh image object. *)
Definition Image_new (mode : string) (size : Z * Z) (color : string) : M ref :=
  fun s =>
    (Ok (length (heap s)),
     mkState (heap s ++ [mkImage mode size color []])
             (font s) (subfont s) (files s) (io_log s)).

(** [ImageDraw.Draw(im)]: the handle draws into [im] itself. *)
Definition ImageDraw_Draw (im : ref) : M ref := ret im.

(** Drawing appends to the display list of the image behind the handle. *)
Definition draw_on (draw : ref) (op : draw_op) : M unit :=
  fun s =>
    match heap s !! draw with
    | Some im =>
        (Ok tt,
         mkState (<[draw := im_draw op im]> (heap s))
                 (font s) (subfont s) (files s) (io_log s))
    | None => raise SystemError s
    end.

(** [draw.rectangle(xy, outline=...)]. *)
Definition rectangle (draw : ref) (xy : Z * Z * Z * Z) (outline : string)
    : M unit :=
  draw_on draw (Rectangle xy outline).

(** [draw.text(xy, text, fill=..., font=...)]. *)
Definition text_ (draw : ref) (xy : Z * Z) (text fill : string) (f : Font)
    : M unit :=
  draw_on draw (Text xy text fill f).

(** [draw.textbbox(xy, text, font=...)]. *)
Definition textbbox (E : env) (draw : ref) (xy : Z * Z) (text : string)
    (f : Font) : M (Z * Z * Z * Z) :=
  ret (measure E xy text f).

(** [ImageFont.truetype(path, size)]. *)
Definition truetype (E : env) (path : string) (size : Z) : M Font :=
  fun s =>
    let s' := mkState (heap s) (font s) (subfont s) (files s)
                      (io_log s ++ [FontOpen path]) in
    match font_error E path size with
    | Some e => (Raise e, s')
    | None => (Ok (FreeTypeFont path size), s')
    end.

(** [ImageFont.load_default()]: the font built into the library. *)
Definition load_default : M Font := ret DefaultFont.

(** [image.save(path)].  The library opens the file for writing, which
    creates it or truncates what it held, and only then encodes the image
    into it.  A save that raises before the file is opened leaves the
    directory alone.  One that raises afterwards leaves no image under
    the name: a file that was there stays truncated, a file the call
    created is removed or left incomplete. *)
Definition save (E : env) (im : ref) (path : string) : M unit :=
  fun s =>
    match heap s !! im with
    | Some i =>
        match save_error E path with
        | Some e =>
            if save_opened E path
            then (Raise e,
                  mkState (heap s) (font s) (subfont s)
                          (delete path (files s))
                          (io_log s ++ [FileWrite path]))
            else (Raise e, s)
        | None =>
            (Ok tt,
             mkState (heap s) (font s) (subfont s)
                     (write_file path i (files s))
                     (io_log s ++ [FileWrite path]))
        end
    | None => raise SystemError s
    end.

(** [print(line)]. *)
Definition print (line : string) : M unit :=
  fun s =>
    (Ok tt,
     mkState (heap s) (font s) (subfont s) (files s)
             (io_log s ++ [StdoutWrite line])).

(** Assignments to and reads of the two font variables; reading a
    variable that was never assigned raises [NameError]. *)
Definition set_font (f : Font) : M unit :=
  fun s => (Ok tt, mkState (heap s) (Some f) (subfont s) (files s) (io_log s)).

Definition set_subfont (f : Font) : M unit :=
  fun s => (Ok tt, mkState (heap s) (font s) (Some f) (files s) (io_log s)).

Definition get_font : M Font :=
  fun s => match font s with Some f => ret f s | None => raise NameError s end.

Definition get_subfont : M Font :=
  fun s =>
    match subfont s with Some f => ret f s | None => raise NameError s end.

(** ** The script *)

Definition bold_path : string :=
  "/usr/share/fonts/truetype/dejavu/DejaVuSans-Bold.ttf".
Definition regular_path : string :=
  "/usr/share/fonts/truetype/dejavu/DejaVuSans.ttf".
Definition output_path : string := "hybrid-syndicate.png".

(** Lines 18-24: the font selection. *)
Definition load_fonts (E : env) : M unit :=
  try_except
    (f <- truetype E bold_path 60 ;;
     set_font f ;;
     f <- truetype E regular_path 24 ;;
     set_subfont f)
    bare_except
    (f <- load_default ;;
     set_font f ;;
     f <- load_default ;;
     set_subfont f).

Definition main (E : env) : M unit :=
  let width := 800 in
  let height := 400 in
  image <- Image_new "RGB" (width, height) "#0a0a0a" ;;
  draw <- ImageDraw_Draw image ;;
  let border_color := "#00f0ff" in
  for_ (range 5) (fun i =>
    rectangle draw (i, i, width - 1 - i, height - 1 - i) border_color) ;;
  let text := "HYBRID SYNDICATE" in
  let subtext := "Replace with hybrid-syndicate.png" in
  load_fonts E ;;
  f <- get_font ;;
  bbox <- textbbox E draw (0, 0) text f ;;
  let text_width := item bbox 2 - item bbox 0 in
  let text_height := item bbox 3 - item bbox 1 in
  let text_x := floordiv (width - text_width) 2 in
  let text_y := floordiv (height - text_height) 2 - 40 in
  f <- get_font ;;
  text_ draw (text_x, text_y) text "#00f0ff" f ;;
  sf <- get_subfont ;;
  bbox2 <- textbbox E draw (0, 0) subtext sf ;;
  let subtext_width := item bbox2 2 - item bbox2 0 in
  let subtext_x := floordiv (width - subtext_width) 2 in
  let subtext_y := text_y + text_height + 20 in
  sf <- get_subfont ;;
  text_ draw (subtext_x, subtext_y) subtext "#39ff14" sf ;;
  save E image output_path ;;
  print "Placeholder image created: hybrid-syndicate.png".

(** A run: a fresh process started in a working directory holding [fs]. *)
Definition boot (fs : gmap string Image) : state :=
  mkState [] None None fs [].

Definition run (E : env) (fs : gmap string Image) : result unit * state :=
  main E (boot fs).

(** ** Observations on an image *)

Definition rectangles (im : Image) : list (Z * Z * Z * Z * string) :=
  omap (fun op => match op with
                  | Rectangle xy outline => Some (xy, outline)
                  | Text _ _ _ _ => None
                  end) (im_ops im).

Definition texts (im : Image) : list (Z * Z * string * string * Font) :=
  omap (fun op => match op with
                  | Text xy t fill f => Some (xy, t, fill, f)
                  | Rectangle _ _ => None
                  end) (im_ops im).

(** ** A run in closed form *)

(** The image the script builds when the selection ended with fonts [f]
    and [sf], in closed form; [run_with_fonts] proves it is the one on
    the heap when the run ends. *)
Definition picture (E : env) (f sf : Font) : Image :=
  let bbox := measure E (0, 0) "HYBRID SYNDICATE" f in
  let bbox2 := measure E (0, 0) "Replace with hybrid-syndicate.png" sf in
  let text_height := item bbox 3 - item bbox 1 in
  let text_y := floordiv (400 - text_height) 2 - 40 in
  mkImage "RGB" (800, 400) "#0a0a0a"
    [ Rectangle (0, 0, 799, 399) "#00f0ff";
      Rectangle (1, 1, 798, 398) "#00f0ff";
      Rectangle (2, 2, 797, 397) "#00f0ff";
      Rectangle (3, 3, 796, 396) "#00f0ff";
      Rectangle (4, 4, 795, 395) "#00f0ff";
      Text (floordiv (800 - (item bbox 2 - item bbox 0)) 2, text_y)
           "HYBRID SYNDICATE" "#00f0ff" f;
      Text (floordiv (800 - (item bbox2 2 - item bbox2 0)) 2,
            text_y + text_height + 20)
           "Replace with hybrid-syndicate.png" "#39ff14" sf ].

Definition confirmation : string :=
  "Placeholder image created: hybrid-syndicate.png".

(** The three ways the selection can go: both files load; the bold one
    fails (the regular one is then never opened); the bold one loads and
    the regular one fails.  [selects E f sf log]: the selection ends with
    [font = f], [subfont = sf], having opened the files in [log]. *)
Inductive selects (E : env) : Font -> Font -> list io_event -> Prop :=
  | sel_truetype :
      font_error E bold_path 60 = None ->
      font_error E regular_path 24 = None ->
      selects E (FreeTypeFont bold_path 60) (FreeTypeFont regular_path 24)
              [FontOpen bold_path; FontOpen regular_path]
  | sel_bold_fails e :
      font_error E bold_path 60 = Some e ->
      selects E DefaultFont DefaultFont [FontOpen bold_path]
  | sel_regular_fails e :
      font_error E bold_path 60 = None ->
      font_error E regular_path 24 = Some e ->
      selects E DefaultFont DefaultFont
              [FontOpen bold_path; FontOpen regular_path].

(** ** Writes and output of a run, read off the record *)

Definition written (s : state) : list string :=
  omap (fun ev => match ev with FileWrite p => Some p | _ => None end)
       (io_log s).

Definition printed (s : state) : list string :=
  omap (fun ev => match ev with StdoutWrite l => Some l | _ => None end)
       (io_log s).

(** The gaps between a rectangle and the left, top, right and bottom
    edges of a canvas of the given size (pixel columns [0 .. w-1], rows
    [0 .. h-1]). *)
Definition insets (size : Z * Z) (xy : Z * Z * Z * Z) : Z * Z * Z * Z :=
  let '(w, h) := size in
  let '(x0, y0, x1, y1) := xy in
  (x0, y0, w - 1 - x1, h - 1 - y1).

(** ** Sample environments *)

(** Measurements of a fixed-pitch rendering: 7/10 of the point size per
    character for a file font, 6 by 11 pixels per character for the
    built-in one. *)
Definition sample_measure (xy : Z * Z) (t : string) (f : Font)
    : Z * Z * Z * Z :=
  match f with
  | FreeTypeFont _ sz =>
      (xy.1, xy.2 + 11, xy.1 + Z.of_nat (String.length t) * sz * 7 / 10,
       xy.2 + sz)
  | DefaultFont =>
      (xy.1, xy.2, xy.1 + 6 * Z.of_nat (String.length t), xy.2 + 11)
  end.

(** Both font files load and the directory is writable. *)
Definition env_ok : env :=
  mkEnv (fun _ _ => None) sample_measure (fun _ => None) (fun _ => false).

(** No font file can be opened. *)
Definition env_no_fonts : env :=
  mkEnv (fun _ _ => Some OSError) sample_measure (fun _ => None)
        (fun _ => false).

(** Only the regular font file is missing. *)
Definition env_regular_missing : env :=
  mkEnv (fun path _ => if decide (path = regular_path) then Some OSError
                       else None)
        sample_measure (fun _ => None) (fun _ => false).

(** The user interrupts the process while the bold font is loading. *)
Definition env_interrupted : env :=
  mkEnv (fun _ _ => Some KeyboardInterrupt) sample_measure (fun _ => None)
        (fun _ => false).

(** The working directory is not writable: the file cannot be opened. *)
Definition env_read_only : env :=
  mkEnv (fun _ _ => None) sample_measure (fun _ => Some OSError)
        (fun _ => false).

(** The disk fills up while the image is being written. *)
Definition env_disk_full : env :=
  mkEnv (fun _ _ => None) sample_measure (fun _ => Some OSError)
        (fun _ => true).

(** Fonts so large that both texts measure 900 by 500 pixels. *)
Definition env_huge : env :=
  mkEnv (fun _ _ => None) (fun xy _ _ => (xy.1, xy.2, xy.1 + 900, xy.2 + 500))
        (fun _ => None) (fun _ => false).

(** A working directory that already holds two files. *)
Definition old_files : gmap string Image :=
  {[ "hybrid-syndicate.png" := mkImage "RGB" (16, 16) "#ffffff" [];
     "index.html" := mkImage "L" (1, 1) "#000000" [] ]}.

(** ** Measurements that move with the anchor *)

(** The library measures a text drawn at [xy] as the box it measures at
    the origin, moved by [xy]. *)
Definition shift (d : Z * Z) (b : Z * Z * Z * Z) : Z * Z * Z * Z :=
  let '(b0, b1, b2, b3) := b in
  (d.1 + b0, d.2 + b1, d.1 + b2, d.2 + b3).

Definition anchored (E : env) : Prop :=
  forall xy t f, measure E xy t f = shift xy (measure E (0, 0) t f).

(** * Properties *)

(** ** Running a sequence *)

Lemma bind_Ok {A B} (m : M A) (k : A -> M B) s a s' :
  m s = (Ok a, s') -> bind m k s = k a s'.
Proof. unfold bind. by intros ->. Qed.

(** One statement that returns normally. *)
Ltac step := erewrite bind_Ok by (cbn; reflexivity).

(** ** The font selection *)

Lemma load_fonts_both E s :
  font_error E bold_path 60 = None ->
  font_error E regular_path 24 = None ->
  load_fonts E s =
    (Ok tt, mkState (heap s) (Some (FreeTypeFont bold_path 60))
                    (Some (FreeTypeFont regular_path 24)) (files s)
                    (io_log s ++ [FontOpen bold_path; FontOpen regular_path])).
Proof.
  intros Hb Hr.
  unfold load_fonts, try_except, bind, truetype, set_font, set_subfont.
  rewrite Hb. cbn. rewrite Hr. cbn.
  by rewrite <- app_assoc.
Qed.

Lemma load_fonts_bold_fails E s e :
  font_error E bold_path 60 = Some e ->
  load_fonts E s =
    (Ok tt, mkState (heap s) (Some DefaultFont) (Some DefaultFont) (files s)
                    (io_log s ++ [FontOpen bold_path])).
Proof.
  intros Hb.
  unfold load_fonts, try_except, bind, truetype, set_font, set_subfont.
  rewrite Hb. reflexivity.
Qed.

Lemma load_fonts_regular_fails E s e :
  font_error E bold_path 60 = None ->
  font_error E regular_path 24 = Some e ->
  load_fonts E s =
    (Ok tt, mkState (heap s) (Some DefaultFont) (Some DefaultFont) (files s)
                    (io_log s ++ [FontOpen bold_path; FontOpen regular_path])).
Proof.
  intros Hb Hr.
  unfold load_fonts, try_except, bind, truetype, set_font, set_subfont.
  rewrite Hb. cbn. rewrite Hr. cbn.
  by rewrite <- app_assoc.
Qed.

(** ** What a run leaves behind *)

Lemma run_with_fonts E fs f sf log :
  (forall s,
     load_fonts E s =
       (Ok tt,
        mkState (heap s) (Some f) (Some sf) (files s) (io_log s ++ log))) ->
  run E fs =
    match save_error E output_path with
    | None =>
        (Ok tt,
         mkState [picture E f sf] (Some f) (Some sf)
                 (write_file output_path (picture E f sf) fs)
                 (log ++ [FileWrite output_path; StdoutWrite confirmation]))
    | Some e =>
        if save_opened E output_path
        then (Raise e,
              mkState [picture E f sf] (Some f) (Some sf)
                      (delete output_path fs)
                      (log ++ [FileWrite output_path]))
        else (Raise e, mkState [picture E f sf] (Some f) (Some sf) fs log)
    end.
Proof.
  intros Hsel. unfold run, main.
  step. step. step.
  erewrite bind_Ok by apply Hsel.
  do 8 step.
  unfold bind, save, print. cbn.
  destruct (save_error E output_path);
    [by destruct (save_opened E output_path)|].
  cbn. by rewrite <- app_assoc.
Qed.

Lemma selects_total E : exists f sf log, selects E f sf log.
Proof.
  destruct (font_error E bold_path 60) as [e|] eqn:Hb.
  - eauto using sel_bold_fails.
  - destruct (font_error E regular_path 24) as [e|] eqn:Hr.
    + eauto using sel_regular_fails.
    + eauto using sel_truetype.
Qed.

Lemma selects_fallback E f sf log :
  font_error E bold_path 60 <> None \/ font_error E regular_path 24 <> None ->
  selects E f sf log -> f = DefaultFont /\ sf = DefaultFont.
Proof.
  intros Hfail Hsel. destruct Hsel as [Hb Hr| |]; auto.
  destruct Hfail as [H|H]; congruence.
Qed.

Lemma load_fonts_selects E f sf log s :
  selects E f sf log ->
  load_fonts E s =
    (Ok tt, mkState (heap s) (Some f) (Some sf) (files s) (io_log s ++ log)).
Proof.
  intros [Hb Hr|e Hb|e Hb Hr].
  - by apply load_fonts_both.
  - by eapply load_fonts_bold_fails.
  - by eapply load_fonts_regular_fails.
Qed.

Lemma run_selects E fs f sf log :
  selects E f sf log ->
  run E fs =
    match save_error E output_path with
    | None =>
        (Ok tt,
         mkState [picture E f sf] (Some f) (Some sf)
                 (write_file output_path (picture E f sf) fs)
                 (log ++ [FileWrite output_path; StdoutWrite confirmation]))
    | Some e =>
        if save_opened E output_path
        then (Raise e,
              mkState [picture E f sf] (Some f) (Some sf)
                      (delete output_path fs)
                      (log ++ [FileWrite output_path]))
        else (Raise e, mkState [picture E f sf] (Some f) (Some sf) fs log)
    end.
Proof.
  intros Hsel. apply run_with_fonts. intros s.
  by apply load_fonts_selects.
Qed.

(** The process state at the end of a run, saved or not. *)
Lemma run_process E fs f sf log :
  selects E f sf log ->
  heap (snd (run E fs)) = [picture E f sf] /\
  font (snd (run E fs)) = Some f /\
  subfont (snd (run E fs)) = Some sf.
Proof.
  intros Hsel. rewrite (run_selects E fs f sf log Hsel).
  by destruct (save_error E output_path), (save_opened E output_path).
Qed.

Lemma run_saves E fs f sf log :
  selects E f sf log ->
  save_error E output_path = None ->
  run E fs =
    (Ok tt,
     mkState [picture E f sf] (Some f) (Some sf)
             (write_file output_path (picture E f sf) fs)
             (log ++ [FileWrite output_path; StdoutWrite confirmation])).
Proof. intros Hsel Hs. by rewrite (run_selects E fs f sf log Hsel), Hs. Qed.

Lemma run_save_fails E fs f sf log e :
  selects E f sf log ->
  save_error E output_path = Some e ->
  run E fs =
    if save_opened E output_path
    then (Raise e,
          mkState [picture E f sf] (Some f) (Some sf)
                  (delete output_path fs)
                  (log ++ [FileWrite output_path]))
    else (Raise e, mkState [picture E f sf] (Some f) (Some sf) fs log).
Proof. intros Hsel Hs. by rewrite (run_selects E fs f sf log Hsel), Hs. Qed.

Lemma run_Ok_saves E fs s' :
  run E fs = (Ok tt, s') -> save_error E output_path = None.
Proof.
  destruct (selects_total E) as (f & sf & log & Hsel).
  rewrite (run_selects E fs f sf log Hsel).
  by destruct (save_error E output_path), (save_opened E output_path).
Qed.

Lemma lookup_write_file p im (fs : gmap string Image) :
  write_file p im fs !! p = Some im.
Proof. unfold write_file. apply lookup_insert_eq. Qed.

Lemma lookup_write_file_ne p q im (fs : gmap string Image) :
  p <> q -> write_file p im fs !! q = fs !! q.
Proof. unfold write_file. apply lookup_insert_ne. Qed.

Lemma run_picture E fs :
  exists f sf log,
    selects E f sf log /\
    heap (snd (run E fs)) = [picture E f sf] /\
    font (snd (run E fs)) = Some f /\
    subfont (snd (run E fs)) = Some sf.
Proof.
  destruct (selects_total E) as (f & sf & log & Hsel).
  exists f, sf, log. split; [done|]. by eapply run_process.
Qed.

Lemma written_saved (log : list io_event) :
  (forall ev, ev ∈ log -> exists p, ev = FontOpen p) ->
  omap (fun ev => match ev with FileWrite p => Some p | _ => None end)
       (log ++ [FileWrite output_path; StdoutWrite confirmation])%list
  = [output_path].
Proof.
  induction log as [|ev log IH]; intros Hlog; [done|].
  destruct (Hlog ev) as [p ->]; [set_solver|].
  cbn. apply IH. intros ev' Hev'. apply Hlog. set_solver.
Qed.

Lemma selects_log E f sf log :
  selects E f sf log -> forall ev, ev ∈ log -> exists p, ev = FontOpen p.
Proof.
  intros Hsel ev Hev.
  destruct Hsel; repeat (apply elem_of_cons in Hev as [->|Hev]; eauto);
    by apply elem_of_nil in Hev.
Qed.

Lemma omap_font_opens {B} (g : io_event -> option B) (log : list io_event) :
  (forall p, g (FontOpen p) = None) ->
  (forall ev, ev ∈ log -> exists p, ev = FontOpen p) ->
  omap g log = [].
Proof.
  intros Hg. induction log as [|ev log IH]; intros Hlog; [done|].
  destruct (Hlog ev) as [p ->]; [set_solver|].
  cbn. rewrite Hg. apply IH. intros ev' Hev'. apply Hlog. set_solver.
Qed.

(** Opening font files neither writes a file nor prints. *)
Lemma written_font_opens s s' (log : list io_event) :
  io_log s' = (io_log s ++ log)%list ->
  (forall ev, ev ∈ log -> exists p, ev = FontOpen p) ->
  written s' = written s /\ printed s' = printed s.
Proof.
  intros Hlog Hopens. unfold written, printed.
  rewrite Hlog, !omap_app.
  rewrite !(omap_font_opens _ log) by auto.
  by rewrite !app_nil_r.
Qed.

(** ** The [except] clause *)

Lemma try_bare_except_catches {A} (body handler : M A) s e s1 :
  body s = (Raise e, s1) ->
  try_except body bare_except handler s = handler s1.
Proof. unfold try_except. by intros ->. Qed.

(** For contrast: [except Exception:] would let an interrupt through. *)
Lemma try_except_Exception_propagates {A} (body handler : M A) s s1 :
  body s = (Raise KeyboardInterrupt, s1) ->
  try_except body except_Exception handler s = (Raise KeyboardInterrupt, s1).
Proof. unfold try_except. by intros ->. Qed.

(** ** The saved file *)

(** C1: whenever a run returns normally, the image it drew is 800 pixels
    wide and 400 high, in mode RGB, it is stored in the working directory
    under the name hybrid-syndicate.png, and that is the only file the run
    wrote. *)
Theorem saved_image_is_800x400_RGB E fs s' :
  run E fs = (Ok tt, s') ->
  exists im,
    heap s' = [im] /\
    files s' !! "hybrid-syndicate.png" = Some im /\
    im_mode im = "RGB" /\
    im_size im = (800, 400) /\
    written s' = ["hybrid-syndicate.png"].
Proof.
  intros Hrun.
  destruct (selects_total E) as (f & sf & log & Hsel).
  pose proof (run_Ok_saves E fs s' Hrun) as Hs.
  rewrite (run_saves E fs f sf log Hsel Hs) in Hrun.
  injection Hrun as <-.
  exists (picture E f sf). cbn [heap files].
  repeat split.
  - apply lookup_write_file.
  - unfold written. cbn [io_log].
    apply written_saved, (selects_log E f sf), Hsel.
Qed.

Lemma saved_image_is_800x400_RGB_witness :
  exists im,
    files (snd (run env_ok old_files)) !! "hybrid-syndicate.png" = Some im /\
    im_mode im = "RGB" /\ im_size im = (800, 400).
Proof.
  destruct (saved_image_is_800x400_RGB env_ok old_files
              (snd (run env_ok old_files)))
    as (im & _ & Hfile & Hmode & Hsize & _).
  - vm_compute. reflexivity.
  - exists im. auto.
Defined.


(** ** The layout of the two texts *)

Lemma texts_picture E f sf :
  texts (picture E f sf) =
    let bbox := measure E (0, 0) "HYBRID SYNDICATE" f in
    let bbox2 := measure E (0, 0) "Replace with hybrid-syndicate.png" sf in
    let text_height := item bbox 3 - item bbox 1 in
    let text_y := floordiv (400 - text_height) 2 - 40 in
    [ (floordiv (800 - (item bbox 2 - item bbox 0)) 2, text_y,
       "HYBRID SYNDICATE", "#00f0ff", f);
      (floordiv (800 - (item bbox2 2 - item bbox2 0)) 2,
       text_y + text_height + 20,
       "Replace with hybrid-syndicate.png", "#39ff14", sf) ].
Proof. reflexivity. Qed.

Lemma rectangles_picture E f sf :
  rectangles (picture E f sf) =
    [ (0, 0, 799, 399, "#00f0ff"); (1, 1, 798, 398, "#00f0ff");
      (2, 2, 797, 397, "#00f0ff"); (3, 3, 796, 396, "#00f0ff");
      (4, 4, 795, 395, "#00f0ff") ].
Proof. reflexivity. Qed.

(** Floor division by two: the quotient is at most half a unit below the
    exact half. *)
Lemma floordiv_2_bounds a : 2 * floordiv a 2 <= a <= 2 * floordiv a 2 + 1.
Proof.
  unfold floordiv.
  pose proof (Z.div_mod a 2 ltac:(lia)).
  pose proof (Z.mod_pos_bound a 2 ltac:(lia)). lia.
Qed.

(** C2: in every run the subtitle is drawn at the vertical position of the
    title plus the height of the title's bounding box, measured with the
    font held by [font], plus 20. *)
Theorem subtitle_y_is_title_y_plus_height_plus_20 E fs :
  exists im f sf tx ty sx sy c c',
    heap (snd (run E fs)) = [im] /\
    font (snd (run E fs)) = Some f /\
    texts im =
      [ (tx, ty, "HYBRID SYNDICATE", c, f);
        (sx, sy, "Replace with hybrid-syndicate.png", c', sf) ] /\
    let bbox := measure E (0, 0) "HYBRID SYNDICATE" f in
    let text_height := item bbox 3 - item bbox 1 in
    sy = ty + text_height + 20.
Proof.
  destruct (run_picture E fs) as (f & sf & log & _ & Hheap & Hfont & _).
  exists (picture E f sf), f, sf. do 6 eexists.
  split; [exact Hheap|]. split; [exact Hfont|].
  split; [apply texts_picture|]. reflexivity.
Qed.

(** C3: in every run the title is drawn at the horizontal position
    [(800 - text_width) // 2], the floor of the exact half, so twice the
    position is [800 - text_width] or one less; [text_width] is the width
    of the bounding box measured with the font held by [font]. *)
Theorem title_x_is_centered_up_to_rounding E fs :
  exists im f tx ty c rest,
    heap (snd (run E fs)) = [im] /\
    font (snd (run E fs)) = Some f /\
    texts im = (tx, ty, "HYBRID SYNDICATE", c, f) :: rest /\
    let bbox := measure E (0, 0) "HYBRID SYNDICATE" f in
    let text_width := item bbox 2 - item bbox 0 in
    tx = floordiv (800 - text_width) 2 /\
    2 * tx <= 800 - text_width <= 2 * tx + 1.
Proof.
  destruct (run_picture E fs) as (f & sf & log & _ & Hheap & Hfont & _).
  exists (picture E f sf), f. do 4 eexists.
  split; [exact Hheap|]. split; [exact Hfont|].
  split; [apply texts_picture|]. cbv zeta.
  split; [reflexivity|]. apply floordiv_2_bounds.
Qed.

(** C5: in every run the rectangles drawn are five, at insets 0, 1, 2, 3
    and 4 from each of the four edges of the 800 by 400 canvas, all
    outlined in the one colour #00f0ff. *)
Theorem border_is_five_rectangles_inset_0_to_4 E fs :
  exists im,
    heap (snd (run E fs)) = [im] /\
    im_size im = (800, 400) /\
    rectangles im =
      (fun i => (i, i, 799 - i, 399 - i, "#00f0ff")) <$> [0; 1; 2; 3; 4] /\
    (fun r => insets (im_size im) r.1) <$> rectangles im =
      (fun i => (i, i, i, i)) <$> [0; 1; 2; 3; 4] /\
    (fun r => r.2) <$> rectangles im = replicate 5 "#00f0ff".
Proof.
  destruct (run_picture E fs) as (f & sf & log & _ & Hheap & _).
  exists (picture E f sf). split; [exact Hheap|].
  rewrite rectangles_picture. by repeat split.
Qed.


(** ** The font selection, seen from a run *)

(** C4: when loading the bold font or loading the regular font fails, the
    selection returns normally with both [font] and [subfont] holding the
    built-in font, and the run goes on to draw both texts with it on the
    800 by 400 image, which it saves whenever the file may be written. *)
Theorem font_failure_falls_back_to_default E fs s :
  font_error E bold_path 60 <> None \/ font_error E regular_path 24 <> None ->
  (exists s',
     load_fonts E s = (Ok tt, s') /\
     font s' = Some DefaultFont /\ subfont s' = Some DefaultFont /\
     heap s' = heap s /\ files s' = files s) /\
  (exists im tx ty sx sy c c',
     heap (snd (run E fs)) = [im] /\
     im_size im = (800, 400) /\
     texts im =
       [ (tx, ty, "HYBRID SYNDICATE", c, DefaultFont);
         (sx, sy, "Replace with hybrid-syndicate.png", c', DefaultFont) ] /\
     (save_error E "hybrid-syndicate.png" = None ->
      fst (run E fs) = Ok tt /\
      files (snd (run E fs)) !! "hybrid-syndicate.png" = Some im)).
Proof.
  intros Hfail.
  destruct (selects_total E) as (f & sf & log & Hsel).
  destruct (selects_fallback E f sf log Hfail Hsel) as [-> ->].
  split.
  - eexists.
    split; [by apply (load_fonts_selects E DefaultFont DefaultFont log)|].
    done.
  - destruct (run_process E fs _ _ _ Hsel) as (Hheap & _).
    exists (picture E DefaultFont DefaultFont). do 6 eexists.
    split; [exact Hheap|]. split; [reflexivity|].
    split; [apply texts_picture|].
    intros Hs. rewrite (run_saves E fs _ _ _ Hsel Hs).
    split; [reflexivity|]. apply lookup_write_file.
Qed.

Lemma font_failure_falls_back_to_default_witness :
  exists s',
    load_fonts env_regular_missing (boot old_files) = (Ok tt, s') /\
    font s' = Some DefaultFont /\ subfont s' = Some DefaultFont.
Proof.
  destruct (font_failure_falls_back_to_default env_regular_missing old_files
              (boot old_files))
    as [(s' & Hload & Hfont & Hsub & _) _].
  - right. vm_compute. discriminate.
  - exists s'. auto.
Defined.

(** C9: the handler is a bare [except]: whatever the exception raised by
    the first or by the second [truetype] call, also one that does not
    derive from [Exception], the clause catches it, the selection returns
    normally with the built-in font in both variables, and nothing is
    printed or written on the way. *)
Theorem bare_except_swallows_any_exception E s (e : exn) :
  font_error E bold_path 60 = Some e \/
  (font_error E bold_path 60 = None /\ font_error E regular_path 24 = Some e) ->
  bare_except e = true /\
  exists s',
    load_fonts E s = (Ok tt, s') /\
    font s' = Some DefaultFont /\ subfont s' = Some DefaultFont /\
    heap s' = heap s /\ files s' = files s /\
    written s' = written s /\ printed s' = printed s.
Proof.
  intros Hraise. split; [reflexivity|].
  assert (exists log, selects E DefaultFont DefaultFont log) as [log Hsel].
  { destruct Hraise as [Hb|[Hb Hr]].
    - eexists. by eapply sel_bold_fails.
    - eexists. by eapply sel_regular_fails. }
  eexists.
  split; [by apply (load_fonts_selects E DefaultFont DefaultFont log)|].
  cbn [font subfont heap files]. repeat split.
  all: eapply written_font_opens;
    [reflexivity | by apply (selects_log E DefaultFont DefaultFont)].
Qed.

Lemma bare_except_swallows_any_exception_witness :
  is_Exception KeyboardInterrupt = false /\
  exists s',
    load_fonts env_interrupted (boot old_files) = (Ok tt, s') /\
    font s' = Some DefaultFont /\ subfont s' = Some DefaultFont.
Proof.
  split; [reflexivity|].
  destruct (bare_except_swallows_any_exception env_interrupted
              (boot old_files) KeyboardInterrupt)
    as (_ & s' & Hload & Hfont & Hsub & _).
  - left. reflexivity.
  - exists s'. auto.
Defined.

(** ** Determinism *)

Lemma picture_ext E1 E2 f sf :
  measure E1 (0, 0) "HYBRID SYNDICATE" f =
    measure E2 (0, 0) "HYBRID SYNDICATE" f ->
  measure E1 (0, 0) "Replace with hybrid-syndicate.png" sf =
    measure E2 (0, 0) "Replace with hybrid-syndicate.png" sf ->
  picture E1 f sf = picture E2 f sf.
Proof. unfold picture. by intros -> ->. Qed.

(** What a run that returned normally wrote and printed. *)
Lemma run_Ok_output E fs :
  fst (run E fs) = Ok tt ->
  exists im,
    heap (snd (run E fs)) = [im] /\
    files (snd (run E fs)) = write_file output_path im fs /\
    written (snd (run E fs)) = [output_path] /\
    printed (snd (run E fs)) = [confirmation].
Proof.
  intros Hok.
  destruct (selects_total E) as (f & sf & log & Hsel).
  assert (save_error E output_path = None) as Hs.
  { apply (run_Ok_saves E fs (snd (run E fs))).
    rewrite <- Hok. by destruct (run E fs). }
  rewrite (run_saves E fs f sf log Hsel Hs).
  exists (picture E f sf). cbn [snd heap files].
  repeat split; unfold written, printed; cbn [io_log].
  - apply written_saved, (selects_log E f sf), Hsel.
  - rewrite omap_app, (omap_font_opens _ log); [done|done|].
    apply (selects_log E f sf), Hsel.
Qed.

(** C7: two runs, in whatever environments and directories, whose font
    selections end with the same two fonts and whose two measurements
    return the same bounding boxes draw the same image (same size, mode,
    background, rectangles, strings, colours and positions); when both
    return normally each has written that image to hybrid-syndicate.png,
    and nothing else, and has printed the same line. *)
Theorem same_fonts_and_boxes_same_output E1 E2 fs1 fs2 f sf :
  font (snd (run E1 fs1)) = Some f ->
  font (snd (run E2 fs2)) = Some f ->
  subfont (snd (run E1 fs1)) = Some sf ->
  subfont (snd (run E2 fs2)) = Some sf ->
  measure E1 (0, 0) "HYBRID SYNDICATE" f =
    measure E2 (0, 0) "HYBRID SYNDICATE" f ->
  measure E1 (0, 0) "Replace with hybrid-syndicate.png" sf =
    measure E2 (0, 0) "Replace with hybrid-syndicate.png" sf ->
  heap (snd (run E1 fs1)) = heap (snd (run E2 fs2)) /\
  (fst (run E1 fs1) = Ok tt -> fst (run E2 fs2) = Ok tt ->
   written (snd (run E1 fs1)) = ["hybrid-syndicate.png"] /\
   written (snd (run E2 fs2)) = ["hybrid-syndicate.png"] /\
   (exists im,
      files (snd (run E1 fs1)) !! "hybrid-syndicate.png" = Some im /\
      files (snd (run E2 fs2)) !! "hybrid-syndicate.png" = Some im) /\
   printed (snd (run E1 fs1)) = printed (snd (run E2 fs2))).
Proof.
  intros Hf1 Hf2 Hsf1 Hsf2 Hm Hm2.
  destruct (run_picture E1 fs1) as (f1 & sf1 & log1 & _ & Hh1 & Hf1' & Hsf1').
  destruct (run_picture E2 fs2) as (f2 & sf2 & log2 & _ & Hh2 & Hf2' & Hsf2').
  assert (f1 = f) as -> by congruence. assert (sf1 = sf) as -> by congruence.
  assert (f2 = f) as -> by congruence. assert (sf2 = sf) as -> by congruence.
  assert (heap (snd (run E1 fs1)) = heap (snd (run E2 fs2))) as Hheap.
  { rewrite Hh1, Hh2. f_equal. by apply picture_ext. }
  split; [exact Hheap|]. intros Hok1 Hok2.
  destruct (run_Ok_output E1 fs1 Hok1) as (im1 & Hi1 & Hfs1 & Hw1 & Hp1).
  destruct (run_Ok_output E2 fs2 Hok2) as (im2 & Hi2 & Hfs2 & Hw2 & Hp2).
  assert (im2 = im1) as -> by congruence.
  repeat split; [done|done| |congruence].
  exists im1. rewrite Hfs1, Hfs2. split; apply lookup_write_file.
Qed.

Lemma same_fonts_and_boxes_same_output_witness :
  heap (snd (run env_no_fonts ∅)) =
    heap (snd (run env_regular_missing old_files)) /\
  exists im,
    files (snd (run env_no_fonts ∅)) !! "hybrid-syndicate.png" = Some im /\
    files (snd (run env_regular_missing old_files)) !! "hybrid-syndicate.png"
      = Some im.
Proof.
  destruct (same_fonts_and_boxes_same_output env_no_fonts env_regular_missing
              ∅ old_files DefaultFont DefaultFont)
    as (Hheap & Hout); try (vm_compute; reflexivity).
  split; [exact Hheap|].
  destruct Hout as (_ & _ & Hfile & _); try (vm_compute; reflexivity).
  exact Hfile.
Defined.

(** ** Input and output of a run *)

Lemma run_files_frame E fs p :
  p <> output_path -> files (snd (run E fs)) !! p = fs !! p.
Proof.
  intros Hp.
  destruct (selects_total E) as (f & sf & log & Hsel).
  rewrite (run_selects E fs f sf log Hsel).
  destruct (save_error E output_path);
    [destruct (save_opened E output_path)|]; cbn [snd files].
  - by apply lookup_delete_ne.
  - done.
  - by apply lookup_write_file_ne.
Qed.





(** ** No clamping *)

(** C10: the positions handed to the two [draw.text] calls are the raw
    results of the centring arithmetic.  A title (a subtitle) measured
    wider than 800 is drawn at a negative horizontal position, and a
    title measured 440 or higher puts the subtitle at row 400 or below,
    off the 400 rows of the canvas (strictly below row 400 from 442
    on). *)
Theorem positions_are_not_clamped E fs :
  exists im f sf tx ty sx sy c c',
    heap (snd (run E fs)) = [im] /\
    font (snd (run E fs)) = Some f /\
    subfont (snd (run E fs)) = Some sf /\
    im_size im = (800, 400) /\
    texts im =
      [ (tx, ty, "HYBRID SYNDICATE", c, f);
        (sx, sy, "Replace with hybrid-syndicate.png", c', sf) ] /\
    let bbox := measure E (0, 0) "HYBRID SYNDICATE" f in
    let bbox2 := measure E (0, 0) "Replace with hybrid-syndicate.png" sf in
    let text_width := item bbox 2 - item bbox 0 in
    let text_height := item bbox 3 - item bbox 1 in
    let subtext_width := item bbox2 2 - item bbox2 0 in
    tx = floordiv (800 - text_width) 2 /\
    sx = floordiv (800 - subtext_width) 2 /\
    sy = floordiv (400 - text_height) 2 - 40 + text_height + 20 /\
    (800 < text_width -> tx < 0) /\
    (800 < subtext_width -> sx < 0) /\
    (440 <= text_height -> 400 <= sy) /\
    (442 <= text_height -> 400 < sy).
Proof.
  destruct (run_picture E fs) as (f & sf & log & _ & Hheap & Hfont & Hsub).
  exists (picture E f sf), f, sf. do 6 eexists.
  split; [exact Hheap|]. split; [exact Hfont|]. split; [exact Hsub|].
  split; [reflexivity|]. split; [apply texts_picture|]. cbv zeta.
  set (w := item (measure E (0, 0) "HYBRID SYNDICATE" f) 2 - _).
  set (h := item (measure E (0, 0) "HYBRID SYNDICATE" f) 3 - _).
  set (w2 :=
    item (measure E (0, 0) "Replace with hybrid-syndicate.png" sf) 2 - _).
  pose proof (floordiv_2_bounds (800 - w)).
  pose proof (floordiv_2_bounds (800 - w2)).
  pose proof (floordiv_2_bounds (400 - h)).
  unfold floordiv in *.
  repeat split; lia.
Qed.

Lemma positions_are_not_clamped_witness :
  exists im tx ty sx sy c c' f sf,
    heap (snd (run env_huge ∅)) = [im] /\
    texts im =
      [ (tx, ty, "HYBRID SYNDICATE", c, f);
        (sx, sy, "Replace with hybrid-syndicate.png", c', sf) ] /\
    tx < 0 /\ sx < 0 /\ 400 < sy.
Proof.
  destruct (positions_are_not_clamped env_huge ∅)
    as (im & f & sf & tx & ty & sx & sy & c & c' &
        Hheap & _ & _ & _ & Htexts & Hpos).
  cbv zeta in Hpos.
  destruct Hpos as (_ & _ & _ & Htx & Hsx & _ & Hsy).
  exists im, tx, ty, sx, sy, c, c', f, sf.
  split; [exact Hheap|]. split; [exact Htexts|].
  split; [apply Htx; by vm_compute|].
  split; [apply Hsx; by vm_compute|].
  apply Hsy. by vm_compute.
Defined.

(** * Further properties of the script *)

(** ** Which fonts, and which font files *)

(** X1: when both font files load, the title is drawn with the bold file
    at size 60 and the subtitle with the regular file at size 24, and
    these are the fonts the two variables hold. *)
Theorem both_fonts_load_selects_truetype E fs :
  font_error E bold_path 60 = None ->
  font_error E regular_path 24 = None ->
  font (snd (run E fs)) =
    Some (FreeTypeFont
            "/usr/share/fonts/truetype/dejavu/DejaVuSans-Bold.ttf" 60) /\
  subfont (snd (run E fs)) =
    Some (FreeTypeFont "/usr/share/fonts/truetype/dejavu/DejaVuSans.ttf" 24) /\
  exists im tx ty sx sy c c',
    heap (snd (run E fs)) = [im] /\
    texts im =
      [ (tx, ty, "HYBRID SYNDICATE", c,
         FreeTypeFont
           "/usr/share/fonts/truetype/dejavu/DejaVuSans-Bold.ttf" 60);
        (sx, sy, "Replace with hybrid-syndicate.png", c',
         FreeTypeFont "/usr/share/fonts/truetype/dejavu/DejaVuSans.ttf" 24) ].
Proof.
  intros Hb Hr.
  destruct (run_process E fs _ _ _ (sel_truetype E Hb Hr))
    as (Hheap & Hfont & Hsub).
  split; [exact Hfont|]. split; [exact Hsub|].
  eexists. do 6 eexists. split; [exact Hheap|]. apply texts_picture.
Qed.

Lemma both_fonts_load_selects_truetype_witness :
  font (snd (run env_ok old_files)) =
    Some (FreeTypeFont
            "/usr/share/fonts/truetype/dejavu/DejaVuSans-Bold.ttf" 60) /\
  subfont (snd (run env_ok old_files)) =
    Some (FreeTypeFont "/usr/share/fonts/truetype/dejavu/DejaVuSans.ttf" 24).
Proof.
  destruct (both_fonts_load_selects_truetype env_ok old_files)
    as (Hfont & Hsub & _); [reflexivity|reflexivity|].
  split; [exact Hfont|exact Hsub].
Defined.

(** X2: the two variables never hold fonts of different kinds.  Either
    both files loaded and the fonts are the two file fonts, or a load
    failed and both are the built-in font: a bold font that did load is
    dropped when the regular one does not. *)
Theorem fonts_are_never_mixed E fs :
  (font_error E bold_path 60 = None /\
   font_error E regular_path 24 = None /\
   font (snd (run E fs)) = Some (FreeTypeFont bold_path 60) /\
   subfont (snd (run E fs)) = Some (FreeTypeFont regular_path 24)) \/
  ((font_error E bold_path 60 <> None \/
    font_error E regular_path 24 <> None) /\
   font (snd (run E fs)) = Some DefaultFont /\
   subfont (snd (run E fs)) = Some DefaultFont).
Proof.
  destruct (run_picture E fs) as (f & sf & log & Hsel & _ & Hfont & Hsub).
  destruct Hsel as [Hb Hr|e Hb|e Hb Hr].
  - left. auto.
  - right. split; [left; congruence|auto].
  - right. split; [right; congruence|auto].
Qed.

Lemma bold_is_not_regular : bold_path <> regular_path.
Proof. unfold bold_path, regular_path. discriminate. Qed.

(** X3: the bold font file is always the first thing a run opens, and the
    regular font file is opened exactly when the bold one loaded. *)
Theorem regular_font_is_opened_iff_bold_loads E fs :
  (exists rest, io_log (snd (run E fs)) = FontOpen bold_path :: rest) /\
  (FontOpen regular_path ∈ io_log (snd (run E fs)) <->
   font_error E bold_path 60 = None).
Proof.
  destruct (selects_total E) as (f & sf & log & Hsel).
  rewrite (run_selects E fs f sf log Hsel).
  pose proof bold_is_not_regular as Hne.
  destruct Hsel as [Hb Hr|e Hb|e Hb Hr], (save_error E output_path);
    try destruct (save_opened E output_path);
    cbn; (split; [by eexists|]); rewrite Hb; split; intros H; try done.
  all: try (repeat constructor; fail).
  all: repeat (apply elem_of_cons in H as [H|H]; [congruence|]);
    by apply elem_of_nil in H.
Qed.

Lemma regular_font_is_opened_iff_bold_loads_witness :
  FontOpen regular_path ∈ io_log (snd (run env_regular_missing old_files)) /\
  FontOpen regular_path ∉ io_log (snd (run env_no_fonts old_files)).
Proof.
  split.
  - by apply (regular_font_is_opened_iff_bold_loads
                env_regular_missing old_files).
  - intros H.
    by apply (regular_font_is_opened_iff_bold_loads
                env_no_fonts old_files) in H.
Defined.

(** ** How a run ends *)

(** X5: when the save raises, the exception leaves the run, nothing is
    printed and no file other than hybrid-syndicate.png is changed.  If
    the save raised before opening the file, the directory is exactly as
    it was and nothing was written.  If it raised after opening the file
    for writing, no image is left under that name: an image that was
    there before the run is destroyed. *)
Theorem failed_save_prints_nothing_and_spares_other_files E fs e :
  save_error E "hybrid-syndicate.png" = Some e ->
  fst (run E fs) = Raise e /\
  printed (snd (run E fs)) = [] /\
  (forall p, p <> "hybrid-syndicate.png" ->
     files (snd (run E fs)) !! p = fs !! p) /\
  (save_opened E "hybrid-syndicate.png" = false ->
     files (snd (run E fs)) = fs /\
     written (snd (run E fs)) = []) /\
  (save_opened E "hybrid-syndicate.png" = true ->
     files (snd (run E fs)) !! "hybrid-syndicate.png" = None /\
     written (snd (run E fs)) = ["hybrid-syndicate.png"]) /\
  exists im, heap (snd (run E fs)) = [im] /\ length (texts im) = 2%nat.
Proof.
  intros Hs.
  destruct (selects_total E) as (f & sf & log & Hsel).
  pose proof (selects_log E f sf log Hsel) as Hlog.
  split; [|split; [|split; [apply run_files_frame|]]].
  - rewrite (run_save_fails E fs f sf log e Hsel Hs).
    by destruct (save_opened E output_path).
  - rewrite (run_save_fails E fs f sf log e Hsel Hs).
    destruct (save_opened E output_path); unfold printed; cbn [snd io_log].
    + rewrite omap_app, (omap_font_opens _ log); done.
    + by apply omap_font_opens.
  - rewrite (run_save_fails E fs f sf log e Hsel Hs). fold output_path.
    destruct (save_opened E output_path);
      unfold written; cbn [snd io_log files heap].
    + split; [discriminate|]. split.
      * intros _. split; [apply lookup_delete_eq|].
        rewrite omap_app, (omap_font_opens _ log); done.
      * by exists (picture E f sf).
    + split.
      * intros _. split; [done|]. by apply omap_font_opens.
      * split; [discriminate|]. by exists (picture E f sf).
Qed.

Lemma failed_save_prints_nothing_and_spares_other_files_witness :
  (fst (run env_read_only old_files) = Raise OSError /\
   files (snd (run env_read_only old_files)) = old_files) /\
  (fst (run env_disk_full old_files) = Raise OSError /\
   old_files !! "hybrid-syndicate.png" =
     Some (mkImage "RGB" (16, 16) "#ffffff" []) /\
   files (snd (run env_disk_full old_files)) !! "hybrid-syndicate.png"
     = None /\
   files (snd (run env_disk_full old_files)) !! "index.html"
     = old_files !! "index.html").
Proof.
  split.
  - destruct (failed_save_prints_nothing_and_spares_other_files
                env_read_only old_files OSError)
      as (Hres & _ & _ & Hclosed & _); [reflexivity|].
    split; [exact Hres|]. by apply Hclosed.
  - destruct (failed_save_prints_nothing_and_spares_other_files
                env_disk_full old_files OSError)
      as (Hres & _ & Hframe & _ & Hopened & _); [reflexivity|].
    split; [exact Hres|]. split; [vm_compute; reflexivity|].
    split; [by apply Hopened|]. by apply Hframe.
Defined.

(** X6: in a run that returns normally the font files are opened first,
    then the file is written, and the confirmation is printed last: the
    line is never printed before, or without, the write. *)
Theorem confirmation_is_printed_after_the_write E fs :
  fst (run E fs) = Ok tt ->
  exists opens : list io_event,
    io_log (snd (run E fs)) =
      (opens ++
       [ FileWrite "hybrid-syndicate.png";
         StdoutWrite "Placeholder image created: hybrid-syndicate.png" ])%list
    /\
    forall ev, ev ∈ opens -> exists p, ev = FontOpen p.
Proof.
  intros Hok.
  destruct (selects_total E) as (f & sf & log & Hsel).
  assert (save_error E output_path = None) as Hs.
  { apply (run_Ok_saves E fs (snd (run E fs))).
    rewrite <- Hok. by destruct (run E fs). }
  rewrite (run_saves E fs f sf log Hsel Hs). cbn [snd io_log].
  exists log. split; [done|]. by apply (selects_log E f sf).
Qed.

Lemma confirmation_is_printed_after_the_write_witness :
  exists opens : list io_event,
    io_log (snd (run env_no_fonts old_files)) =
      (opens ++
       [ FileWrite "hybrid-syndicate.png";
         StdoutWrite "Placeholder image created: hybrid-syndicate.png" ])%list.
Proof.
  destruct (confirmation_is_printed_after_the_write env_no_fonts old_files)
    as (opens & Hlog & _); [by vm_compute|].
  by exists opens.
Defined.

(** X7: running again in the same environment, in the directory the
    first run left, gives the very same outcome: same result, same image,
    same directory, same input and output. *)
Theorem second_run_repeats_the_first E fs :
  run E (files (snd (run E fs))) = run E fs.
Proof.
  destruct (selects_total E) as (f & sf & log & Hsel).
  rewrite !(run_selects E _ f sf log Hsel).
  destruct (save_error E output_path);
    [destruct (save_opened E output_path)|]; cbn [snd files].
  - by rewrite delete_delete_eq.
  - done.
  - unfold write_file. by rewrite insert_insert_eq.
Qed.

(** X8: what the directory held under the output name has no influence:
    when the save is permitted, a run started with any file there ends in
    the same state as a run started without it. *)
Theorem old_output_file_has_no_influence E fs old :
  save_error E "hybrid-syndicate.png" = None ->
  run E (<["hybrid-syndicate.png" := old]> fs) = run E fs /\
  run E (delete "hybrid-syndicate.png" fs) = run E fs.
Proof.
  intros Hs.
  destruct (selects_total E) as (f & sf & log & Hsel).
  rewrite !(run_saves E _ f sf log Hsel Hs).
  unfold write_file, output_path.
  by rewrite insert_insert_eq, insert_delete_eq.
Qed.

Lemma old_output_file_has_no_influence_witness :
  run env_ok old_files = run env_ok (delete "hybrid-syndicate.png" old_files).
Proof.
  destruct (old_output_file_has_no_influence env_ok old_files
              (mkImage "L" (1, 1) "#000000" []))
    as (_ & Hdel); [reflexivity|].
  by rewrite Hdel.
Defined.

(** ** More on the layout *)

(** X9: in every run the title is drawn 40 pixels above the vertically
    centred position: its vertical position plus 40 is the floor of half
    the height its measured box leaves in the 400 rows. *)
Theorem title_y_is_40_above_centre E fs :
  exists im f tx ty c rest,
    heap (snd (run E fs)) = [im] /\
    font (snd (run E fs)) = Some f /\
    texts im = (tx, ty, "HYBRID SYNDICATE", c, f) :: rest /\
    let bbox := measure E (0, 0) "HYBRID SYNDICATE" f in
    let text_height := item bbox 3 - item bbox 1 in
    ty = floordiv (400 - text_height) 2 - 40 /\
    2 * (ty + 40) <= 400 - text_height <= 2 * (ty + 40) + 1.
Proof.
  destruct (run_picture E fs) as (f & sf & log & _ & Hheap & Hfont & _).
  exists (picture E f sf), f. do 4 eexists.
  split; [exact Hheap|]. split; [exact Hfont|].
  split; [apply texts_picture|]. cbv zeta.
  set (h := item (measure E (0, 0) "HYBRID SYNDICATE" f) 3 - _).
  pose proof (floordiv_2_bounds (400 - h)).
  split; [reflexivity|]. unfold floordiv in *. lia.
Qed.

(** X10: each text, placed at its draw position with its measured width,
    lies within the 800 columns exactly when that width is at most 800,
    and clear of the five border columns on either side exactly when it
    is at most 790. *)
Theorem texts_fit_the_width_iff E fs :
  exists im f sf tx ty sx sy c c',
    heap (snd (run E fs)) = [im] /\
    font (snd (run E fs)) = Some f /\
    subfont (snd (run E fs)) = Some sf /\
    texts im =
      [ (tx, ty, "HYBRID SYNDICATE", c, f);
        (sx, sy, "Replace with hybrid-syndicate.png", c', sf) ] /\
    let bbox := measure E (0, 0) "HYBRID SYNDICATE" f in
    let bbox2 := measure E (0, 0) "Replace with hybrid-syndicate.png" sf in
    let text_width := item bbox 2 - item bbox 0 in
    let subtext_width := item bbox2 2 - item bbox2 0 in
    ((0 <= tx /\ tx + text_width <= 800) <-> text_width <= 800) /\
    ((5 <= tx /\ tx + text_width <= 795) <-> text_width <= 790) /\
    ((0 <= sx /\ sx + subtext_width <= 800) <-> subtext_width <= 800) /\
    ((5 <= sx /\ sx + subtext_width <= 795) <-> subtext_width <= 790).
Proof.
  destruct (run_picture E fs) as (f & sf & log & _ & Hheap & Hfont & Hsub).
  exists (picture E f sf), f, sf. do 6 eexists.
  split; [exact Hheap|]. split; [exact Hfont|]. split; [exact Hsub|].
  split; [apply texts_picture|]. cbv zeta.
  set (w := item (measure E (0, 0) "HYBRID SYNDICATE" f) 2 - _).
  set (w2 :=
    item (measure E (0, 0) "Replace with hybrid-syndicate.png" sf) 2 - _).
  pose proof (floordiv_2_bounds (800 - w)).
  pose proof (floordiv_2_bounds (800 - w2)).
  unfold floordiv in *. repeat split; lia.
Qed.

Lemma texts_fit_the_width_iff_witness :
  exists im tx ty sx sy c c' f sf,
    heap (snd (run env_ok ∅)) = [im] /\
    texts im =
      [ (tx, ty, "HYBRID SYNDICATE", c, f);
        (sx, sy, "Replace with hybrid-syndicate.png", c', sf) ] /\
    5 <= tx /\ 5 <= sx.
Proof.
  destruct (texts_fit_the_width_iff env_ok ∅)
    as (im & f & sf & tx & ty & sx & sy & c & c' &
        Hheap & Hfont & Hsub & Htexts & Hfit).
  vm_compute in Hfont. vm_compute in Hsub.
  injection Hfont as <-. injection Hsub as <-.
  cbv zeta in Hfit. destruct Hfit as (_ & Htx & _ & Hsx).
  exists im, tx, ty, sx, sy, c, c'. do 2 eexists.
  split; [exact Hheap|]. split; [exact Htexts|].
  split; [apply Htx|apply Hsx]; by vm_compute.
Defined.

(** X11: the title's draw position is on the canvas (not above row 0)
    exactly when its measured height is at most 320, and the subtitle's
    draw position is on the canvas (above row 400) exactly when that
    height is at most 439. *)
Theorem texts_fit_the_height_iff E fs :
  exists im f sf tx ty sx sy c c',
    heap (snd (run E fs)) = [im] /\
    font (snd (run E fs)) = Some f /\
    texts im =
      [ (tx, ty, "HYBRID SYNDICATE", c, f);
        (sx, sy, "Replace with hybrid-syndicate.png", c', sf) ] /\
    let bbox := measure E (0, 0) "HYBRID SYNDICATE" f in
    let text_height := item bbox 3 - item bbox 1 in
    (0 <= ty <-> text_height <= 320) /\
    (sy < 400 <-> text_height <= 439).
Proof.
  destruct (run_picture E fs) as (f & sf & log & _ & Hheap & Hfont & _).
  exists (picture E f sf), f, sf. do 6 eexists.
  split; [exact Hheap|]. split; [exact Hfont|].
  split; [apply texts_picture|]. cbv zeta.
  set (h := item (measure E (0, 0) "HYBRID SYNDICATE" f) 3 - _).
  pose proof (floordiv_2_bounds (400 - h)).
  unfold floordiv in *. repeat split; lia.
Qed.

Lemma texts_fit_the_height_iff_witness :
  exists im tx ty sx sy c c' f sf,
    heap (snd (run env_ok ∅)) = [im] /\
    texts im =
      [ (tx, ty, "HYBRID SYNDICATE", c, f);
        (sx, sy, "Replace with hybrid-syndicate.png", c', sf) ] /\
    0 <= ty /\ sy < 400.
Proof.
  destruct (texts_fit_the_height_iff env_ok ∅)
    as (im & f & sf & tx & ty & sx & sy & c & c' &
        Hheap & Hfont & Htexts & Hfit).
  vm_compute in Hfont. injection Hfont as <-.
  cbv zeta in Hfit. destruct Hfit as (Hty & Hsy).
  exists im, tx, ty, sx, sy, c, c'. do 2 eexists.
  split; [exact Hheap|]. split; [exact Htexts|].
  split; [apply Hty|apply Hsy]; by vm_compute.
Defined.

(** X12: in every run, saved or not, the image is drawn in this order on
    the background #0a0a0a: the five border rectangles, then the title,
    then the subtitle, and nothing else; the title has the colour of the
    border, #00f0ff, the subtitle #39ff14. *)
Theorem image_is_border_then_title_then_subtitle E fs :
  exists im f sf tx ty sx sy,
    heap (snd (run E fs)) = [im] /\
    im_color im = "#0a0a0a" /\
    im_ops im =
      (((fun i => Rectangle (i, i, 799 - i, 399 - i) "#00f0ff")
          <$> [0; 1; 2; 3; 4]) ++
       [ Text (tx, ty) "HYBRID SYNDICATE" "#00f0ff" f;
         Text (sx, sy) "Replace with hybrid-syndicate.png" "#39ff14" sf ])%list.
Proof.
  destruct (run_picture E fs) as (f & sf & log & _ & Hheap & _).
  exists (picture E f sf), f, sf. do 4 eexists.
  split; [exact Hheap|]. split; reflexivity.
Qed.

(** ** The boxes as drawn *)

Lemma item_shift d b :
  item (shift d b) 0 = d.1 + item b 0 /\
  item (shift d b) 1 = d.2 + item b 1 /\
  item (shift d b) 2 = d.1 + item b 2 /\
  item (shift d b) 3 = d.2 + item b 3.
Proof. by destruct b as [[[b0 b1] b2] b3]. Qed.

Lemma env_ok_anchored : anchored env_ok.
Proof.
  intros [x y] t [path sz|]; cbn; repeat f_equal; lia.
Qed.

(** X13: the script measures the title at the origin and uses only the
    width of the box.  When measurements move with the anchor, the box
    the title occupies once drawn has a right margin that exceeds its
    left margin by minus twice the left edge of the box measured at the
    origin, up to one pixel of rounding: the drawn title is centred only
    if that box starts at column 0. *)
Theorem drawn_title_is_off_centre_by_its_left_offset E fs :
  anchored E ->
  exists im f tx ty c rest,
    heap (snd (run E fs)) = [im] /\
    font (snd (run E fs)) = Some f /\
    texts im = (tx, ty, "HYBRID SYNDICATE", c, f) :: rest /\
    let bbox := measure E (0, 0) "HYBRID SYNDICATE" f in
    let drawn := measure E (tx, ty) "HYBRID SYNDICATE" f in
    let left_margin := item drawn 0 in
    let right_margin := 800 - item drawn 2 in
    0 <= (right_margin - left_margin) + 2 * item bbox 0 <= 1.
Proof.
  intros Hanch.
  destruct (run_picture E fs) as (f & sf & log & _ & Hheap & Hfont & _).
  exists (picture E f sf), f. do 4 eexists.
  split; [exact Hheap|]. split; [exact Hfont|].
  split; [apply texts_picture|]. cbv zeta.
  set (b := measure E (0, 0) "HYBRID SYNDICATE" f).
  match goal with
  | |- context [measure E (?x, ?y) "HYBRID SYNDICATE" f] =>
      rewrite (Hanch (x, y) "HYBRID SYNDICATE" f); fold b;
      destruct (item_shift (x, y) b) as (-> & _ & -> & _)
  end.
  cbn [fst snd].
  pose proof (floordiv_2_bounds (800 - (item b 2 - item b 0))).
  unfold floordiv in *. lia.
Qed.

Lemma drawn_title_is_off_centre_by_its_left_offset_witness :
  exists im f tx ty c rest,
    heap (snd (run env_ok ∅)) = [im] /\
    texts im = (tx, ty, "HYBRID SYNDICATE", c, f) :: rest /\
    0 <= (800 - item (measure env_ok (tx, ty) "HYBRID SYNDICATE" f) 2)
         - item (measure env_ok (tx, ty) "HYBRID SYNDICATE" f) 0
         + 2 * item (measure env_ok (0, 0) "HYBRID SYNDICATE" f) 0 <= 1.
Proof.
  destruct (drawn_title_is_off_centre_by_its_left_offset env_ok ∅
              env_ok_anchored)
    as (im & f & tx & ty & c & rest & Hheap & _ & Htexts & Hoff).
  exists im, f, tx, ty, c, rest. auto.
Defined.

(** X14: the gap of 20 is added to the height of the title's box, not to
    its bottom.  When measurements move with the anchor, the top of the
    subtitle's box as drawn lies below the bottom of the title's box as
    drawn by 20, less the top edge of the title's box measured at the
    origin, plus the top edge of the subtitle's. *)
Theorem drawn_gap_depends_on_the_top_offsets E fs :
  anchored E ->
  exists im f sf tx ty sx sy c c',
    heap (snd (run E fs)) = [im] /\
    font (snd (run E fs)) = Some f /\
    subfont (snd (run E fs)) = Some sf /\
    texts im =
      [ (tx, ty, "HYBRID SYNDICATE", c, f);
        (sx, sy, "Replace with hybrid-syndicate.png", c', sf) ] /\
    let bbox := measure E (0, 0) "HYBRID SYNDICATE" f in
    let bbox2 := measure E (0, 0) "Replace with hybrid-syndicate.png" sf in
    let drawn := measure E (tx, ty) "HYBRID SYNDICATE" f in
    let drawn2 :=
      measure E (sx, sy) "Replace with hybrid-syndicate.png" sf in
    item drawn2 1 - item drawn 3 = 20 - item bbox 1 + item bbox2 1.
Proof.
  intros Hanch.
  destruct (run_picture E fs) as (f & sf & log & _ & Hheap & Hfont & Hsub).
  exists (picture E f sf), f, sf. do 6 eexists.
  split; [exact Hheap|]. split; [exact Hfont|]. split; [exact Hsub|].
  split; [apply texts_picture|]. cbv zeta.
  set (b := measure E (0, 0) "HYBRID SYNDICATE" f).
  set (b2 := measure E (0, 0) "Replace with hybrid-syndicate.png" sf).
  match goal with
  | |- context [measure E (?x, ?y) "HYBRID SYNDICATE" f] =>
      rewrite (Hanch (x, y) "HYBRID SYNDICATE" f); fold b;
      destruct (item_shift (x, y) b) as (_ & _ & _ & ->)
  end.
  match goal with
  | |- context [measure E (?x, ?y) "Replace with hybrid-syndicate.png" sf] =>
      rewrite (Hanch (x, y) "Replace with hybrid-syndicate.png" sf); fold b2;
      destruct (item_shift (x, y) b2) as (_ & -> & _ & _)
  end.
  cbn [fst snd]. lia.
Qed.

Lemma drawn_gap_depends_on_the_top_offsets_witness :
  exists im f sf tx ty sx sy c c',
    heap (snd (run env_ok ∅)) = [im] /\
    texts im =
      [ (tx, ty, "HYBRID SYNDICATE", c, f);
        (sx, sy, "Replace with hybrid-syndicate.png", c', sf) ] /\
    item (measure env_ok (sx, sy) "Replace with hybrid-syndicate.png" sf) 1
      - item (measure env_ok (tx, ty) "HYBRID SYNDICATE" f) 3 = 20.
Proof.
  destruct (drawn_gap_depends_on_the_top_offsets env_ok ∅ env_ok_anchored)
    as (im & f & sf & tx & ty & sx & sy & c & c' &
        Hheap & Hfont & Hsub & Htexts & Hgap).
  vm_compute in Hfont. vm_compute in Hsub.
  injection Hfont as <-. injection Hsub as <-.
  exists im. do 8 eexists.
  split; [exact Hheap|]. split; [exact Htexts|].
  cbv zeta in Hgap. rewrite Hgap. by vm_compute.
Defined.
